(** * The PuertoCho Assistant dashboard entry point

    A shallow embedding of [puertocho-assistant-view/main.cpp].  The
    program is a linear sequence of calls into the Qt toolkit, so the
    development has two layers:

    - [Module Qt]: the part of the toolkit that [main] talks to, as a
      state record and a state monad over it.  Every call that [main]
      makes is written to a chronological [log], which is what the
      ordering properties are stated on.
    - [main] itself and the lambda it connects to
      [QQmlApplicationEngine::objectCreated], transcribed line by line.

    The toolkit is not part of the repository; its operations follow the
    behaviour Qt documents for them.  What the toolkit decides on its own
    (whether the root document instantiates, which events reach the event
    loop) is an [Environment] that every theorem quantifies over. *)

From stdpp Require Import base option list gmap strings.
From Stdlib Require Import ZArith Lia.

Local Open Scope string_scope.
Local Open Scope list_scope.

(** ** Values handed across the toolkit boundary *)

(** [QUrl] and [QString] values are compared with [==] only. *)
Abbreviation QUrl := string (only parsing).
Abbreviation QString := string (only parsing).

(** An instantiated QML root object.  A [QObject *] is [option QObject],
    the null pointer being [None]. *)
Inductive QObject : Type :=
| RootObject (id : nat).

Abbreviation QObjectPtr := (option QObject) (only parsing).

(** [!obj] on a pointer. *)
Definition is_null (obj : QObjectPtr) : bool :=
  match obj with
  | None => true
  | Some _ => false
  end.

Module Qt.

(** The two members of [Qt::ApplicationAttribute] that the program names. *)
Inductive ApplicationAttribute : Type :=
| AA_EnableHighDpiScaling
| AA_UseHighDpiPixmaps.

Inductive ConnectionType : Type :=
| AutoConnection
| DirectConnection
| QueuedConnection.

(** Events that reach the event loop from outside the program. *)
Inductive ExternalEvent : Type :=
| Quit (returnCode : Z)   (* the toolkit ends the loop, e.g. last window closed *)
| Other.                  (* input, paint, timer: nothing this program observes *)

(** What the toolkit decides: the document handle and the path that
    [objectCreated] reports for a load request, and the external events
    that arrive while the loop runs. *)
Record Environment : Type := {
  loadResult : QUrl -> QObjectPtr * QUrl;
  events : list ExternalEvent
}.

(** The body of a slot connected to [objectCreated]: from the signal's
    two arguments to the return code it passes to [QCoreApplication::exit],
    or [None] when it returns without calling it. *)
Definition Slot : Type := QObjectPtr -> QUrl -> option Z.

Record Connection : Type := {
  conn_slot : Slot;
  conn_type : ConnectionType
}.

(** A queued slot invocation waiting in the receiver's event queue, with
    the signal arguments copied at emission time. *)
Record MetaCall : Type := {
  mc_slot : Slot;
  mc_obj : QObjectPtr;
  mc_url : QUrl
}.

(** One entry of the chronological log. *)
Inductive Call : Type :=
| CSetAttribute (a : ApplicationAttribute)
| CQGuiApplication (argv : list string)
| CSetApplicationName (s : QString)
| CSetApplicationVersion (s : QString)
| CSetOrganizationName (s : QString)
| CSetOrganizationDomain (s : QString)
| CQQmlApplicationEngine
| CRootContext
| CSetContextProperty (name : QString) (value : QString)
| CConnect (t : ConnectionType)
| CLoadEnter (url : QUrl)
| CLoadReturn
| CExecEnter
| CSlotInvoked (obj : QObjectPtr) (objUrl : QUrl)
| CExit (returnCode : Z).

(** Process-wide toolkit state. *)
Record State : Type := {
  attributes : list ApplicationAttribute;
  application : option (list string);
  st_applicationName : QString;
  st_applicationVersion : QString;
  st_organizationName : QString;
  st_organizationDomain : QString;
  engine : bool;
  contextProperties : gmap string string;
  connections : list Connection;
  postedEvents : list MetaCall;
  loopRunning : bool;
  exitCode : option Z;
  log : list Call
}.

Definition initial : State := {|
  attributes := [];
  application := None;
  st_applicationName := EmptyString;
  st_applicationVersion := EmptyString;
  st_organizationName := EmptyString;
  st_organizationDomain := EmptyString;
  engine := false;
  contextProperties := ∅;
  connections := [];
  postedEvents := [];
  loopRunning := false;
  exitCode := None;
  log := []
|}.

(** *** The state monad *)

Definition Toolkit (A : Type) : Type := State -> A * State.

Definition ret {A : Type} (a : A) : Toolkit A := fun s => (a, s).

Definition bind {A B : Type} (m : Toolkit A) (k : A -> Toolkit B) : Toolkit B :=
  fun s => let (a, s') := m s in k a s'.

Definition gets {A : Type} (f : State -> A) : Toolkit A := fun s => (f s, s).

Definition modify (f : State -> State) : Toolkit unit := fun s => (tt, f s).

Definition exec_state {A : Type} (m : Toolkit A) (s : State) : State := snd (m s).

Declare Scope toolkit_scope.
Delimit Scope toolkit_scope with toolkit.
Bind Scope toolkit_scope with Toolkit.

Notation "x <- m ;; k" := (bind m (fun x => k))
  (at level 100, m at next level, right associativity) : toolkit_scope.
Notation "m ;; k" := (bind m (fun _ => k))
  (at level 100, right associativity) : toolkit_scope.

Local Open Scope toolkit_scope.

(** *** Field updates *)

Definition record (c : Call) : Toolkit unit :=
  modify (fun s =>
    {| attributes := attributes s; application := application s;
       st_applicationName := st_applicationName s;
       st_applicationVersion := st_applicationVersion s;
       st_organizationName := st_organizationName s;
       st_organizationDomain := st_organizationDomain s;
       engine := engine s; contextProperties := contextProperties s;
       connections := connections s; postedEvents := postedEvents s;
       loopRunning := loopRunning s; exitCode := exitCode s;
       log := log s ++ [c] |}).

Definition with_attributes (l : list ApplicationAttribute) (s : State) : State :=
  {| attributes := l; application := application s;
     st_applicationName := st_applicationName s;
     st_applicationVersion := st_applicationVersion s;
     st_organizationName := st_organizationName s;
     st_organizationDomain := st_organizationDomain s;
     engine := engine s; contextProperties := contextProperties s;
     connections := connections s; postedEvents := postedEvents s;
     loopRunning := loopRunning s; exitCode := exitCode s; log := log s |}.

Definition with_application (a : option (list string)) (s : State) : State :=
  {| attributes := attributes s; application := a;
     st_applicationName := st_applicationName s;
     st_applicationVersion := st_applicationVersion s;
     st_organizationName := st_organizationName s;
     st_organizationDomain := st_organizationDomain s;
     engine := engine s; contextProperties := contextProperties s;
     connections := connections s; postedEvents := postedEvents s;
     loopRunning := loopRunning s; exitCode := exitCode s; log := log s |}.

(** The four identity strings, in the order name, version, organization
    name, organization domain. *)
Definition with_identity (n v o d : QString) (s : State) : State :=
  {| attributes := attributes s; application := application s;
     st_applicationName := n;
     st_applicationVersion := v;
     st_organizationName := o;
     st_organizationDomain := d;
     engine := engine s; contextProperties := contextProperties s;
     connections := connections s; postedEvents := postedEvents s;
     loopRunning := loopRunning s; exitCode := exitCode s; log := log s |}.

Definition with_engine (b : bool) (s : State) : State :=
  {| attributes := attributes s; application := application s;
     st_applicationName := st_applicationName s;
     st_applicationVersion := st_applicationVersion s;
     st_organizationName := st_organizationName s;
     st_organizationDomain := st_organizationDomain s;
     engine := b; contextProperties := contextProperties s;
     connections := connections s; postedEvents := postedEvents s;
     loopRunning := loopRunning s; exitCode := exitCode s; log := log s |}.

Definition with_contextProperties (m : gmap string string) (s : State) : State :=
  {| attributes := attributes s; application := application s;
     st_applicationName := st_applicationName s;
     st_applicationVersion := st_applicationVersion s;
     st_organizationName := st_organizationName s;
     st_organizationDomain := st_organizationDomain s;
     engine := engine s; contextProperties := m;
     connections := connections s; postedEvents := postedEvents s;
     loopRunning := loopRunning s; exitCode := exitCode s; log := log s |}.

Definition with_connections (l : list Connection) (s : State) : State :=
  {| attributes := attributes s; application := application s;
     st_applicationName := st_applicationName s;
     st_applicationVersion := st_applicationVersion s;
     st_organizationName := st_organizationName s;
     st_organizationDomain := st_organizationDomain s;
     engine := engine s; contextProperties := contextProperties s;
     connections := l; postedEvents := postedEvents s;
     loopRunning := loopRunning s; exitCode := exitCode s; log := log s |}.

Definition with_postedEvents (q : list MetaCall) (s : State) : State :=
  {| attributes := attributes s; application := application s;
     st_applicationName := st_applicationName s;
     st_applicationVersion := st_applicationVersion s;
     st_organizationName := st_organizationName s;
     st_organizationDomain := st_organizationDomain s;
     engine := engine s; contextProperties := contextProperties s;
     connections := connections s; postedEvents := q;
     loopRunning := loopRunning s; exitCode := exitCode s; log := log s |}.

Definition with_loopRunning (b : bool) (s : State) : State :=
  {| attributes := attributes s; application := application s;
     st_applicationName := st_applicationName s;
     st_applicationVersion := st_applicationVersion s;
     st_organizationName := st_organizationName s;
     st_organizationDomain := st_organizationDomain s;
     engine := engine s; contextProperties := contextProperties s;
     connections := connections s; postedEvents := postedEvents s;
     loopRunning := b; exitCode := exitCode s; log := log s |}.

Definition with_exitCode (c : option Z) (s : State) : State :=
  {| attributes := attributes s; application := application s;
     st_applicationName := st_applicationName s;
     st_applicationVersion := st_applicationVersion s;
     st_organizationName := st_organizationName s;
     st_organizationDomain := st_organizationDomain s;
     engine := engine s; contextProperties := contextProperties s;
     connections := connections s; postedEvents := postedEvents s;
     loopRunning := loopRunning s; exitCode := c; log := log s |}.

(** *** The calls [main] makes *)

(** [QCoreApplication::setAttribute(attribute)]: switches the attribute on. *)
Definition setAttribute (a : ApplicationAttribute) : Toolkit unit :=
  record (CSetAttribute a) ;;
  modify (fun s => with_attributes (a :: attributes s) s).

Definition testAttribute (a : ApplicationAttribute) (s : State) : bool :=
  existsb (fun b => match a, b with
                    | AA_EnableHighDpiScaling, AA_EnableHighDpiScaling => true
                    | AA_UseHighDpiPixmaps, AA_UseHighDpiPixmaps => true
                    | _, _ => false
                    end) (attributes s).

(** [QGuiApplication app(argc, argv)]. *)
Definition QGuiApplication (argv : list string) : Toolkit unit :=
  record (CQGuiApplication argv) ;;
  modify (with_application (Some argv)).

Definition setApplicationName (n : QString) : Toolkit unit :=
  record (CSetApplicationName n) ;;
  modify (fun s => with_identity n (st_applicationVersion s)
                     (st_organizationName s) (st_organizationDomain s) s).

Definition setApplicationVersion (v : QString) : Toolkit unit :=
  record (CSetApplicationVersion v) ;;
  modify (fun s => with_identity (st_applicationName s) v
                     (st_organizationName s) (st_organizationDomain s) s).

Definition setOrganizationName (o : QString) : Toolkit unit :=
  record (CSetOrganizationName o) ;;
  modify (fun s => with_identity (st_applicationName s) (st_applicationVersion s)
                     o (st_organizationDomain s) s).

Definition setOrganizationDomain (d : QString) : Toolkit unit :=
  record (CSetOrganizationDomain d) ;;
  modify (fun s => with_identity (st_applicationName s) (st_applicationVersion s)
                     (st_organizationName s) d s).

Definition applicationName : Toolkit QString := gets st_applicationName.

Definition applicationVersion : Toolkit QString := gets st_applicationVersion.

(** [QQmlApplicationEngine engine]. *)
Definition QQmlApplicationEngine : Toolkit unit :=
  record CQQmlApplicationEngine ;;
  modify (with_engine true).

(** [engine.rootContext()]; the engine has one root context, so the
    pointer carries no information. *)
Definition rootContext : Toolkit unit :=
  record CRootContext.

(** [context->setContextProperty(name, value)]: the value is copied into
    the context; a later call with the same name replaces it. *)
Definition setContextProperty (context : unit) (name value : QString) : Toolkit unit :=
  record (CSetContextProperty name value) ;;
  modify (fun s => with_contextProperties (<[name := value]> (contextProperties s)) s).

(** [QObject::connect(&engine, &QQmlApplicationEngine::objectCreated,
    &app, slot, type)].  The connection stays in place until it is
    disconnected; nothing in the program disconnects. *)
Definition connect (slot : Slot) (t : ConnectionType) : Toolkit unit :=
  record (CConnect t) ;;
  modify (fun s => with_connections
                     (connections s ++ [{| conn_slot := slot; conn_type := t |}]) s).

(** [QCoreApplication::exit(returnCode)]: tells the running event loop to
    leave with [returnCode]; does nothing when no event loop is running. *)
Definition exit (returnCode : Z) : Toolkit unit :=
  record (CExit returnCode) ;;
  modify (fun s => if loopRunning s then with_exitCode (Some returnCode) s else s).

(** Running a slot body with the given signal arguments. *)
Definition invoke (slot : Slot) (obj : QObjectPtr) (objUrl : QUrl) : Toolkit unit :=
  record (CSlotInvoked obj objUrl) ;;
  match slot obj objUrl with
  | Some returnCode => exit returnCode
  | None => ret tt
  end.

(** Activating one connection for an emitted signal: a queued connection
    posts the call to the receiver's event queue, the other two kinds
    (sender and receiver live in the one GUI thread) run the slot before
    the emission returns. *)
Definition activate (obj : QObjectPtr) (objUrl : QUrl) (c : Connection) : Toolkit unit :=
  match conn_type c with
  | QueuedConnection =>
      modify (fun s => with_postedEvents
                         (postedEvents s ++
                          [{| mc_slot := conn_slot c; mc_obj := obj; mc_url := objUrl |}]) s)
  | DirectConnection | AutoConnection => invoke (conn_slot c) obj objUrl
  end.

Fixpoint activate_all (obj : QObjectPtr) (objUrl : QUrl) (cs : list Connection)
  : Toolkit unit :=
  match cs with
  | [] => ret tt
  | c :: cs' => activate obj objUrl c ;; activate_all obj objUrl cs'
  end.

(** [emit objectCreated(obj, objUrl)]: every connection in place at the
    moment of emission is activated, in connection order. *)
Definition emit_objectCreated (obj : QObjectPtr) (objUrl : QUrl) : Toolkit unit :=
  cs <- gets connections ;;
  activate_all obj objUrl cs.

(** [engine.load(url)]: the engine instantiates the document and emits
    [objectCreated] once for the request.  For a document compiled into
    the resources, as here, it does so before the call returns. *)
Definition load (env : Environment) (url : QUrl) : Toolkit unit :=
  record (CLoadEnter url) ;;
  (let notification := loadResult env url in
   emit_objectCreated (fst notification) (snd notification)) ;;
  record CLoadReturn.

Fixpoint deliver (q : list MetaCall) : Toolkit unit :=
  match q with
  | [] => ret tt
  | e :: q' => invoke (mc_slot e) (mc_obj e) (mc_url e) ;; deliver q'
  end.

(** Delivery of the calls posted so far. *)
Definition sendPostedEvents : Toolkit unit :=
  q <- gets postedEvents ;;
  modify (with_postedEvents []) ;;
  deliver q.

Definition external (e : ExternalEvent) : Toolkit unit :=
  match e with
  | Quit returnCode => modify (with_exitCode (Some returnCode))
  | Other => ret tt
  end.

(** The turns of the event loop.  Each turn delivers the posted calls,
    leaves with the return code if one was requested, and otherwise takes
    the next external event.  [None]: the external events given by the
    environment are used up and the loop is still running. *)
Fixpoint processEvents (ext : list ExternalEvent) : Toolkit (option Z) :=
  sendPostedEvents ;;
  code <- gets exitCode ;;
  match code with
  | Some returnCode => ret (Some returnCode)
  | None =>
      match ext with
      | [] => ret None
      | e :: ext' => external e ;; processEvents ext'
      end
  end.

(** [app.exec()]. *)
Definition exec (env : Environment) : Toolkit (option Z) :=
  record CExecEnter ;;
  modify (with_loopRunning true) ;;
  r <- processEvents (events env) ;;
  modify (with_loopRunning false) ;;
  ret r.

End Qt.

Import Qt.
Local Open Scope toolkit_scope.

(** ** The program *)

(** The lambda [[url](QObject *obj, const QUrl &objUrl) {
      if (!obj && url == objUrl) QCoreApplication::exit(-1); }]. *)
Definition on_objectCreated (url : QUrl) : Slot :=
  fun (obj : QObjectPtr) (objUrl : QUrl) =>
    if is_null obj && String.eqb url objUrl
    then Some (-1)%Z
    else None.

(** [int main(int argc, char *argv[])].  The result is the value of
    [app.exec()], when the loop has returned. *)
Definition main (env : Environment) (argv : list string) : Toolkit (option Z) :=
  setAttribute AA_EnableHighDpiScaling ;;
  setAttribute AA_UseHighDpiPixmaps ;;

  QGuiApplication argv ;;

  setApplicationName "PuertoCho Assistant Dashboard" ;;
  setApplicationVersion "1.0.0" ;;
  setOrganizationName "PuertoCho" ;;
  setOrganizationDomain "puertocho.local" ;;

  QQmlApplicationEngine ;;

  context <- rootContext ;;
  v <- applicationVersion ;;
  setContextProperty context "applicationVersion" v ;;
  n <- applicationName ;;
  setContextProperty context "applicationName" n ;;

  let url : QUrl := "qrc:/main.qml" in
  connect (on_objectCreated url) QueuedConnection ;;

  load env url ;;

  exec env.

(** ** Executions *)

(** One execution: [main] started in the initial toolkit state. *)
Definition run (env : Environment) (argv : list string) : option Z * State :=
  main env argv initial.

Definition exit_status (env : Environment) (argv : list string) : option Z :=
  fst (run env argv).

Definition final (env : Environment) (argv : list string) : State :=
  snd (run env argv).

(** The chronological log of an execution. *)
Definition trace (env : Environment) (argv : list string) : list Call :=
  log (final env argv).

(** The notification [objectCreated(obj, objUrl)] that the engine emits
    for the program's load request. *)
Definition created (env : Environment) : QObjectPtr * QUrl :=
  loadResult env "qrc:/main.qml".

(** The toolkit state in which [main] calls [app.exec()]
    (lemma [main_enters_loop]). *)
Definition entering_loop (env : Environment) (argv : list string) : State := {|
  attributes := [AA_UseHighDpiPixmaps; AA_EnableHighDpiScaling];
  application := Some argv;
  st_applicationName := "PuertoCho Assistant Dashboard";
  st_applicationVersion := "1.0.0";
  st_organizationName := "PuertoCho";
  st_organizationDomain := "puertocho.local";
  engine := true;
  contextProperties :=
    <["applicationName" := "PuertoCho Assistant Dashboard"]>
      (<["applicationVersion" := "1.0.0"]> ∅);
  connections :=
    [{| conn_slot := on_objectCreated "qrc:/main.qml";
        conn_type := QueuedConnection |}];
  postedEvents :=
    [{| mc_slot := on_objectCreated "qrc:/main.qml";
        mc_obj := fst (created env); mc_url := snd (created env) |}];
  loopRunning := false;
  exitCode := None;
  log :=
    [CSetAttribute AA_EnableHighDpiScaling;
     CSetAttribute AA_UseHighDpiPixmaps;
     CQGuiApplication argv;
     CSetApplicationName "PuertoCho Assistant Dashboard";
     CSetApplicationVersion "1.0.0";
     CSetOrganizationName "PuertoCho";
     CSetOrganizationDomain "puertocho.local";
     CQQmlApplicationEngine;
     CRootContext;
     CSetContextProperty "applicationVersion" "1.0.0";
     CSetContextProperty "applicationName" "PuertoCho Assistant Dashboard";
     CConnect QueuedConnection;
     CLoadEnter "qrc:/main.qml";
     CLoadReturn]
|}.

(** The return code of the first [Quit] among the external events. *)
Fixpoint first_quit (ext : list ExternalEvent) : option Z :=
  match ext with
  | [] => None
  | Quit returnCode :: _ => Some returnCode
  | Other :: ext' => first_quit ext'
  end.

(** ** Properties of logs *)

Definition is_setAttribute (a : ApplicationAttribute) (c : Call) : bool :=
  match c, a with
  | CSetAttribute AA_EnableHighDpiScaling, AA_EnableHighDpiScaling => true
  | CSetAttribute AA_UseHighDpiPixmaps, AA_UseHighDpiPixmaps => true
  | _, _ => false
  end.

Definition is_QGuiApplication (c : Call) : bool :=
  match c with CQGuiApplication _ => true | _ => false end.

Definition is_setApplicationName (c : Call) : bool :=
  match c with CSetApplicationName _ => true | _ => false end.

Definition is_setApplicationVersion (c : Call) : bool :=
  match c with CSetApplicationVersion _ => true | _ => false end.

Definition is_setOrganizationName (c : Call) : bool :=
  match c with CSetOrganizationName _ => true | _ => false end.

Definition is_setOrganizationDomain (c : Call) : bool :=
  match c with CSetOrganizationDomain _ => true | _ => false end.

Definition is_rootContext (c : Call) : bool :=
  match c with CRootContext => true | _ => false end.

Definition is_setContextProperty (name : QString) (c : Call) : bool :=
  match c with CSetContextProperty n _ => String.eqb name n | _ => false end.

Definition is_connect (c : Call) : bool :=
  match c with CConnect _ => true | _ => false end.

Definition is_load (c : Call) : bool :=
  match c with CLoadEnter _ => true | _ => false end.

Definition is_loadReturn (c : Call) : bool :=
  match c with CLoadReturn => true | _ => false end.

Definition is_exec (c : Call) : bool :=
  match c with CExecEnter => true | _ => false end.

Definition is_slotInvoked (c : Call) : bool :=
  match c with CSlotInvoked _ _ => true | _ => false end.

Definition is_exit (c : Call) : bool :=
  match c with CExit _ => true | _ => false end.

(** [before p q l]: a [q] call occurs in [l], and a [p] call occurs
    strictly before the first [q] call. *)
Fixpoint before (p q : Call -> bool) (l : list Call) : bool :=
  match l with
  | [] => false
  | c :: l' =>
      if q c then false
      else if p c then existsb q l'
      else before p q l'
  end.

(** The number of [p] calls in [l]. *)
Definition occurrences (p : Call -> bool) (l : list Call) : nat :=
  length (List.filter p l).

(** [reentrant inside l]: some slot body runs, or [QCoreApplication::exit]
    is called, between a [CLoadEnter] and the matching [CLoadReturn];
    [inside] tells whether the log starts within a load call. *)
Fixpoint reentrant (inside : bool) (l : list Call) : bool :=
  match l with
  | [] => false
  | CLoadEnter _ :: l' => reentrant true l'
  | CLoadReturn :: l' => reentrant false l'
  | CSlotInvoked _ _ :: l' => inside || reentrant inside l'
  | CExit _ :: l' => inside || reentrant inside l'
  | _ :: l' => reentrant inside l'
  end.

(** [outside_loop running l]: some slot body runs, or
    [QCoreApplication::exit] is called, before the event loop is entered;
    [running] tells whether the log starts with the loop entered. *)
Fixpoint outside_loop (running : bool) (l : list Call) : bool :=
  match l with
  | [] => false
  | CExecEnter :: l' => outside_loop true l'
  | CSlotInvoked _ _ :: l' => negb running || outside_loop running l'
  | CExit _ :: l' => negb running || outside_loop running l'
  | _ :: l' => outside_loop running l'
  end.

Definition is_anySetContextProperty (c : Call) : bool :=
  match c with CSetContextProperty _ _ => true | _ => false end.

(** The calls that write the global state of the startup sequence:
    attribute flags, identity strings, context properties. *)
Definition is_setter (c : Call) : bool :=
  match c with
  | CSetAttribute _
  | CSetApplicationName _ | CSetApplicationVersion _
  | CSetOrganizationName _ | CSetOrganizationDomain _
  | CSetContextProperty _ _ => true
  | _ => false
  end.

(** A log with the process arguments blanked out. *)
Definition forget_argv (c : Call) : Call :=
  match c with
  | CQGuiApplication _ => CQGuiApplication []
  | _ => c
  end.

(** The global state that the startup sequence establishes: attribute
    flags, application object, identity strings, engine, context
    properties and connections agree in [s] and [s']. *)
Definition same_globals (s s' : State) : Prop :=
  attributes s = attributes s' /\
  application s = application s' /\
  st_applicationName s = st_applicationName s' /\
  st_applicationVersion s = st_applicationVersion s' /\
  st_organizationName s = st_organizationName s' /\
  st_organizationDomain s = st_organizationDomain s' /\
  engine s = engine s' /\
  contextProperties s = contextProperties s' /\
  connections s = connections s'.

(** The condition of the lambda on the notification of this execution. *)
Definition load_failed (env : Environment) : bool :=
  is_null (fst (created env)) &&
  String.eqb "qrc:/main.qml" (snd (created env)).

(** ** Two sample environments *)

(** The root document instantiates; later the user closes the window. *)
Definition env_loaded : Environment := {|
  loadResult := fun url => (Some (RootObject 0), url);
  events := [Other; Quit 0]
|}.

(** The root document does not instantiate. *)
Definition env_broken : Environment := {|
  loadResult := fun url => (None, url);
  events := []
|}.

(** ** Symbolic execution of [main] *)

Lemma main_enters_loop (env : Environment) (argv : list string) :
  main env argv initial = exec env (entering_loop env argv).
Proof. reflexivity. Qed.

(** ** The event loop *)

Lemma processEvents_unfold (ext : list ExternalEvent) (s : State) :
  processEvents ext s =
  (sendPostedEvents ;;
   code <- gets exitCode ;;
   match code with
   | Some returnCode => ret (Some returnCode)
   | None =>
       match ext with
       | [] => ret None
       | e :: ext' => external e ;; processEvents ext'
       end
   end) s.
Proof. destruct ext; reflexivity. Qed.

(** With nothing posted and a return code already requested, the loop
    leaves at once. *)
Lemma processEvents_leaving (ext : list ExternalEvent) (s : State) (c : Z) :
  postedEvents s = [] -> exitCode s = Some c ->
  fst (processEvents ext s) = Some c /\
  log (snd (processEvents ext s)) = log s.
Proof.
  destruct s; simpl; intros -> ->.
  rewrite processEvents_unfold. split; reflexivity.
Qed.

(** With nothing posted, the loop runs no slot: its result is decided by
    the external events alone and the log does not grow. *)
Lemma processEvents_idle (ext : list ExternalEvent) :
  forall s : State,
    postedEvents s = [] -> exitCode s = None ->
    fst (processEvents ext s) = first_quit ext /\
    log (snd (processEvents ext s)) = log s.
Proof.
  induction ext as [|e ext IH]; intros s Hq Hc.
  - destruct s; simpl in Hq, Hc; subst. split; reflexivity.
  - destruct s; simpl in Hq, Hc; subst.
    rewrite processEvents_unfold.
    destruct e as [c|]; simpl.
    + apply processEvents_leaving; reflexivity.
    + apply IH; reflexivity.
Qed.

Lemma bind_fst {A B : Type} (m : Toolkit A) (k : A -> Toolkit B) (s : State) :
  fst (bind m k s) = fst (k (fst (m s)) (snd (m s))).
Proof. unfold bind. destruct (m s); reflexivity. Qed.

Lemma bind_snd {A B : Type} (m : Toolkit A) (k : A -> Toolkit B) (s : State) :
  snd (bind m k s) = snd (k (fst (m s)) (snd (m s))).
Proof. unfold bind. destruct (m s); reflexivity. Qed.

(** One posted call: the loop runs its slot in the first turn, and leaves
    with the slot's return code if the slot calls
    [QCoreApplication::exit]. *)
Lemma processEvents_one (ext : list ExternalEvent) (s : State) (mc : MetaCall) :
  postedEvents s = [mc] -> loopRunning s = true -> exitCode s = None ->
  fst (processEvents ext s) =
    match mc_slot mc (mc_obj mc) (mc_url mc) with
    | Some c => Some c
    | None => first_quit ext
    end /\
  log (snd (processEvents ext s)) =
    log s ++ CSlotInvoked (mc_obj mc) (mc_url mc) ::
      match mc_slot mc (mc_obj mc) (mc_url mc) with
      | Some c => [CExit c]
      | None => []
      end.
Proof.
  destruct s, mc as [slot obj objUrl]; simpl; intros -> -> ->.
  rewrite processEvents_unfold.
  cbv -[processEvents first_quit app].
  destruct (slot obj objUrl) as [c|].
  - rewrite <- !app_assoc. split; reflexivity.
  - destruct ext as [|e ext]; [split; reflexivity|].
    destruct e as [c|].
    + apply (processEvents_leaving ext); reflexivity.
    + apply (processEvents_idle ext); reflexivity.
Qed.

Lemma exec_fst (env : Environment) (s : State) :
  fst (exec env s) =
  fst (processEvents (events env)
         (with_loopRunning true (snd (record CExecEnter s)))).
Proof. unfold exec. rewrite !bind_fst. reflexivity. Qed.

Lemma exec_log (env : Environment) (s : State) :
  log (snd (exec env s)) =
  log (snd (processEvents (events env)
              (with_loopRunning true (snd (record CExecEnter s))))).
Proof. unfold exec. rewrite !bind_snd. reflexivity. Qed.

Lemma on_objectCreated_load_failed (env : Environment) :
  on_objectCreated "qrc:/main.qml" (fst (created env)) (snd (created env)) =
  if load_failed env then Some (-1)%Z else None.
Proof. reflexivity. Qed.

(** *** The two shapes of an execution *)

Lemma run_status (env : Environment) (argv : list string) :
  exit_status env argv =
  if load_failed env then Some (-1)%Z else first_quit (events env).
Proof.
  unfold exit_status, run. rewrite main_enters_loop, exec_fst.
  edestruct (processEvents_one (events env)) as [-> _];
    [reflexivity | reflexivity | reflexivity |].
  cbn [mc_slot mc_obj mc_url]. rewrite on_objectCreated_load_failed.
  destruct (load_failed env); reflexivity.
Qed.

Lemma run_log (env : Environment) (argv : list string) :
  trace env argv =
  log (entering_loop env argv) ++
  CExecEnter :: CSlotInvoked (fst (created env)) (snd (created env)) ::
  (if load_failed env then [CExit (-1)%Z] else []).
Proof.
  unfold trace, final, run. rewrite main_enters_loop, exec_log.
  edestruct (processEvents_one (events env)) as [_ ->];
    [reflexivity | reflexivity | reflexivity |].
  cbn [mc_slot mc_obj mc_url]. rewrite on_objectCreated_load_failed.
  destruct (load_failed env); reflexivity.
Qed.

(** *** The loop leaves the startup state alone *)

Lemma same_globals_refl (s : State) : same_globals s s.
Proof. unfold same_globals. repeat split. Qed.

Lemma same_globals_trans (s1 s2 s3 : State) :
  same_globals s1 s2 -> same_globals s2 s3 -> same_globals s1 s3.
Proof.
  unfold same_globals.
  intros (A1 & A2 & A3 & A4 & A5 & A6 & A7 & A8 & A9)
         (B1 & B2 & B3 & B4 & B5 & B6 & B7 & B8 & B9).
  repeat split; etransitivity; eassumption.
Qed.

Lemma invoke_frame (slot : Slot) (obj : QObjectPtr) (objUrl : QUrl) (s : State) :
  same_globals s (snd (invoke slot obj objUrl s)).
Proof.
  unfold invoke. rewrite bind_snd.
  destruct (slot obj objUrl) as [c|], s as [? ? ? ? ? ? ? ? ? ? running ? ?].
  - destruct running; cbv; repeat split.
  - cbv; repeat split.
Qed.

Lemma deliver_frame (q : list MetaCall) :
  forall s : State, same_globals s (snd (deliver q s)).
Proof.
  induction q as [|e q IH]; intros s.
  - apply same_globals_refl.
  - cbn [deliver]. rewrite bind_snd.
    eapply same_globals_trans; [apply invoke_frame | apply IH].
Qed.

Lemma sendPostedEvents_frame (s : State) :
  same_globals s (snd (sendPostedEvents s)).
Proof.
  unfold sendPostedEvents. rewrite !bind_snd.
  eapply same_globals_trans; [|apply deliver_frame].
  destruct s; cbv; repeat split.
Qed.

Lemma external_frame (e : ExternalEvent) (s : State) :
  same_globals s (snd (external e s)).
Proof. destruct e, s; cbv; repeat split. Qed.

Lemma processEvents_frame (ext : list ExternalEvent) :
  forall s : State, same_globals s (snd (processEvents ext s)).
Proof.
  induction ext as [|e ext IH]; intros s;
    rewrite processEvents_unfold, !bind_snd;
    (eapply same_globals_trans; [apply sendPostedEvents_frame|]);
    cbn [gets fst snd];
    destruct (exitCode _); try apply same_globals_refl.
  rewrite bind_snd.
  eapply same_globals_trans; [apply external_frame | apply IH].
Qed.

(** Whatever the loop is entered with, [app.exec()] returns with the
    same attribute flags, identity strings, context properties and
    connections. *)
Lemma exec_frame (env : Environment) (s : State) :
  same_globals s (snd (exec env s)).
Proof.
  unfold exec. rewrite !bind_snd. cbn [record modify ret fst snd].
  set (s1 := with_loopRunning true _).
  apply same_globals_trans with s1; [destruct s; cbv; repeat split|].
  apply same_globals_trans with (snd (processEvents (events env) s1));
    [apply processEvents_frame|].
  destruct (snd _); cbv; repeat split.
Qed.

Lemma run_frame (env : Environment) (argv : list string) :
  same_globals (entering_loop env argv) (final env argv).
Proof.
  unfold final, run. rewrite main_enters_loop. apply exec_frame.
Qed.

(** ** Logs *)

Lemma before_app_l (p q : Call -> bool) (l t : list Call) :
  before p q l = true -> before p q (l ++ t) = true.
Proof.
  induction l as [|c l IH]; cbn [before app]; [discriminate|].
  destruct (q c); [discriminate|].
  destruct (p c); [|exact IH].
  rewrite existsb_app. intros ->. reflexivity.
Qed.

(** What [before] computes: the log splits around a [p] call and a later
    [q] call, with no [q] call ahead of that one. *)
Lemma before_sound (p q : Call -> bool) (l : list Call) :
  before p q l = true ->
  exists l1 a l2 b l3,
    l = l1 ++ a :: l2 ++ b :: l3 /\ p a = true /\ q b = true /\
    forallb (fun c => negb (q c)) (l1 ++ a :: l2) = true.
Proof.
  induction l as [|c l IH]; cbn [before]; [discriminate|].
  destruct (q c) eqn:Hq; [discriminate|].
  destruct (p c) eqn:Hp.
  - clear IH. intros H. exists [], c.
    induction l as [|d l IH]; cbn [existsb] in H; [discriminate|].
    destruct (q d) eqn:Hd.
    + exists [], d, l. cbn. rewrite Hq. auto.
    + destruct (IH H) as (l2 & b & l3 & E & _ & Hb & F).
      injection E as E. exists (d :: l2), b, l3.
      cbn in F |- *. rewrite Hq in F |- *. rewrite Hd. subst l. auto.
  - intros H. destruct (IH H) as (l1 & a & l2 & b & l3 & E & Ha & Hb & F).
    exists (c :: l1), a, l2, b, l3. cbn. rewrite Hq, E. auto.
Qed.

Lemma load_failed_iff (env : Environment) :
  load_failed env = true <->
  fst (created env) = None /\ snd (created env) = "qrc:/main.qml".
Proof.
  unfold load_failed. rewrite andb_true_iff, String.eqb_eq.
  destruct (fst (created env)) as [o|]; cbn.
  - split; [intros [? _]; discriminate | intros [? _]; discriminate].
  - split; intros [_ E]; split; auto.
Qed.

Lemma on_objectCreated_iff (url : QUrl) (obj : QObjectPtr) (objUrl : QUrl) :
  on_objectCreated url obj objUrl = Some (-1)%Z <-> obj = None /\ objUrl = url.
Proof.
  unfold on_objectCreated. destruct obj as [o|]; cbn.
  - split; [discriminate | intros [? _]; discriminate].
  - destruct (String.eqb_spec url objUrl) as [->|N].
    + split; auto.
    + split; [discriminate | intros [_ E]; congruence].
Qed.

Lemma on_objectCreated_cases (url : QUrl) (obj : QObjectPtr) (objUrl : QUrl) :
  on_objectCreated url obj objUrl = Some (-1)%Z \/
  on_objectCreated url obj objUrl = None.
Proof. unfold on_objectCreated. destruct (_ && _); auto. Qed.

(** ** The load-failure exit *)

(** C1.  The notification of an execution carries the handle [obj] and
    the path [objUrl] that the environment chooses.  The slot registered
    by [main] is run with them, and [QCoreApplication::exit(-1)] is called
    if and only if [obj] is null and [objUrl] is [qrc:/main.qml]; then
    [main] returns -1.  With a non-null handle or another path the slot
    makes no exit call at all and the return code is left to the toolkit's
    own events.  The lambda itself answers any pair of arguments the same
    way. *)
Theorem objectCreated_terminates_iff (env : Environment) (argv : list string) :
  let obj := fst (loadResult env "qrc:/main.qml") in
  let objUrl := snd (loadResult env "qrc:/main.qml") in
  In (CSlotInvoked obj objUrl) (trace env argv) /\
  (In (CExit (-1)%Z) (trace env argv) <->
   obj = None /\ objUrl = "qrc:/main.qml") /\
  (obj = None /\ objUrl = "qrc:/main.qml" ->
   exit_status env argv = Some (-1)%Z) /\
  (~ (obj = None /\ objUrl = "qrc:/main.qml") ->
   occurrences is_exit (trace env argv) = 0 /\
   exit_status env argv = first_quit (events env)) /\
  (forall (o : QObjectPtr) (u : QUrl),
     (on_objectCreated "qrc:/main.qml" o u = Some (-1)%Z <->
      o = None /\ u = "qrc:/main.qml") /\
     (on_objectCreated "qrc:/main.qml" o u = Some (-1)%Z \/
      on_objectCreated "qrc:/main.qml" o u = None)).
Proof.
  intros obj objUrl.
  pose proof (load_failed_iff env) as F. fold obj objUrl in F.
  change (fst (created env)) with obj in F.
  change (snd (created env)) with objUrl in F.
  rewrite run_log, run_status.
  change (fst (created env)) with obj.
  change (snd (created env)) with objUrl.
  assert (L : forall o u,
             (on_objectCreated "qrc:/main.qml" o u = Some (-1)%Z <->
              o = None /\ u = "qrc:/main.qml") /\
             (on_objectCreated "qrc:/main.qml" o u = Some (-1)%Z \/
              on_objectCreated "qrc:/main.qml" o u = None)).
  { intros o u. split;
      [apply on_objectCreated_iff | apply on_objectCreated_cases]. }
  destruct (load_failed env).
  - assert (G : obj = None /\ objUrl = "qrc:/main.qml") by (apply F; reflexivity).
    split; [cbn; tauto|].
    split; [split; [intros _; exact G | intros _; cbn; tauto]|].
    split; [reflexivity|].
    split; [intros N; destruct (N G) | exact L].
  - assert (G : ~ (obj = None /\ objUrl = "qrc:/main.qml")).
    { intros G. apply F in G. discriminate. }
    split; [cbn; tauto|].
    split; [split; [cbn; intuition discriminate | intros H; destruct (G H)]|].
    split; [intros H; destruct (G H)|].
    split; [intros _; split; reflexivity | exact L].
Qed.

(** ** Order of the startup calls *)

(** A call ordering that already holds in the log at loop entry holds in
    the log of the whole execution. *)
Lemma before_startup (p q : Call -> bool) (env : Environment) (argv : list string) :
  before p q (log (entering_loop env argv)) = true ->
  before p q (trace env argv) = true.
Proof. intros H. rewrite run_log. apply before_app_l, H. Qed.

Ltac startup_order := apply before_startup; reflexivity.

Ltac count_calls env :=
  rewrite run_log; destruct (load_failed env); reflexivity.

(** C2.  In every execution both context properties are published, and
    the four identity strings are set, strictly before the first (and
    only) load request. *)
Theorem identity_and_properties_before_load (env : Environment) (argv : list string) :
  before (is_setContextProperty "applicationVersion") is_load (trace env argv) = true /\
  before (is_setContextProperty "applicationName") is_load (trace env argv) = true /\
  before is_setApplicationName is_load (trace env argv) = true /\
  before is_setApplicationVersion is_load (trace env argv) = true /\
  before is_setOrganizationName is_load (trace env argv) = true /\
  before is_setOrganizationDomain is_load (trace env argv) = true /\
  occurrences is_load (trace env argv) = 1.
Proof.
  repeat split; try startup_order. count_calls env.
Qed.

(** C3.  In every launch, and so in every launch whose root document
    loads, the UI context holds [applicationName] with the value
    "PuertoCho Assistant Dashboard" and [applicationVersion] with the
    value "1.0.0", and these are the identity strings of the application
    object. *)
Theorem context_properties_values (env : Environment) (argv : list string) :
  contextProperties (final env argv) !! "applicationName"
    = Some "PuertoCho Assistant Dashboard" /\
  contextProperties (final env argv) !! "applicationVersion" = Some "1.0.0" /\
  contextProperties (final env argv) !! "applicationName"
    = Some (st_applicationName (final env argv)) /\
  contextProperties (final env argv) !! "applicationVersion"
    = Some (st_applicationVersion (final env argv)).
Proof.
  destruct (run_frame env argv) as (_ & _ & <- & <- & _ & _ & _ & <- & _).
  cbn [contextProperties st_applicationName st_applicationVersion entering_loop].
  rewrite lookup_insert_eq, lookup_insert_ne, lookup_insert_eq by discriminate.
  repeat split.
Qed.

(** C7.  In every execution both high-DPI attributes are set before the
    application object is constructed, which happens once. *)
Theorem attributes_before_application (env : Environment) (argv : list string) :
  before (is_setAttribute AA_EnableHighDpiScaling) is_QGuiApplication
    (trace env argv) = true /\
  before (is_setAttribute AA_UseHighDpiPixmaps) is_QGuiApplication
    (trace env argv) = true /\
  occurrences is_QGuiApplication (trace env argv) = 1 /\
  testAttribute AA_EnableHighDpiScaling (final env argv) = true /\
  testAttribute AA_UseHighDpiPixmaps (final env argv) = true.
Proof.
  split; [startup_order|]. split; [startup_order|].
  split; [count_calls env|].
  unfold testAttribute.
  destruct (run_frame env argv) as (<- & _). split; reflexivity.
Qed.

(** C10.  In every execution the organization name is set to
    "PuertoCho" and the organization domain to "puertocho.local", both
    before the root context is fetched and before any context property is
    published, and the two strings keep these values. *)
Theorem organization_identity (env : Environment) (argv : list string) :
  In (CSetOrganizationName "PuertoCho") (trace env argv) /\
  In (CSetOrganizationDomain "puertocho.local") (trace env argv) /\
  before is_setOrganizationName is_rootContext (trace env argv) = true /\
  before is_setOrganizationDomain is_rootContext (trace env argv) = true /\
  before is_setOrganizationName is_anySetContextProperty (trace env argv) = true /\
  before is_setOrganizationDomain is_anySetContextProperty (trace env argv) = true /\
  st_organizationName (final env argv) = "PuertoCho" /\
  st_organizationDomain (final env argv) = "puertocho.local".
Proof.
  destruct (run_frame env argv) as (_ & _ & _ & _ & <- & <- & _).
  split; [rewrite run_log; cbn; tauto|].
  split; [rewrite run_log; cbn; tauto|].
  repeat split; startup_order.
Qed.

(** C4, as stated: the load request is issued before the observer is
    registered.  In the execution in which the root document loads, the
    first connect call is not preceded by any load request. *)
Lemma load_request_not_before_connect :
  ~ (before is_load is_connect (trace env_loaded ["puertocho-assistant-view"]) = true).
Proof. rewrite run_log. cbv. discriminate. Qed.

(** C4, amended.  Every execution starts with the same fifteen calls:
    the two attributes, the application object, the four identity
    strings, the engine, the root context and its two properties, then
    the registration of the observer, then the load request, then the
    event loop.  In particular the observer is registered before the load
    request is issued, and each of the two happens once. *)
Theorem startup_call_order (env : Environment) (argv : list string) :
  firstn 15 (trace env argv) =
    [CSetAttribute AA_EnableHighDpiScaling;
     CSetAttribute AA_UseHighDpiPixmaps;
     CQGuiApplication argv;
     CSetApplicationName "PuertoCho Assistant Dashboard";
     CSetApplicationVersion "1.0.0";
     CSetOrganizationName "PuertoCho";
     CSetOrganizationDomain "puertocho.local";
     CQQmlApplicationEngine;
     CRootContext;
     CSetContextProperty "applicationVersion" "1.0.0";
     CSetContextProperty "applicationName" "PuertoCho Assistant Dashboard";
     CConnect QueuedConnection;
     CLoadEnter "qrc:/main.qml";
     CLoadReturn;
     CExecEnter] /\
  before is_connect is_load (trace env argv) = true /\
  before is_load is_exec (trace env argv) = true /\
  occurrences is_connect (trace env argv) = 1 /\
  occurrences is_load (trace env argv) = 1.
Proof.
  split; [rewrite run_log; reflexivity|].
  split; [startup_order|].
  split; [rewrite run_log; reflexivity|].
  split; count_calls env.
Qed.

(** ** Dispatch of the observer *)

(** Had the slot been connected directly, a failed load would run it
    inside [engine.load()], where no event loop is running and the exit
    request is lost. *)
Remark direct_connection_reenters :
  let s := exec_state
             (connect (on_objectCreated "qrc:/main.qml") DirectConnection ;;
              load env_broken "qrc:/main.qml") initial in
  log s = [CConnect DirectConnection; CLoadEnter "qrc:/main.qml";
           CSlotInvoked None "qrc:/main.qml"; CExit (-1)%Z; CLoadReturn] /\
  reentrant false (log s) = true /\
  exitCode s = None.
Proof. repeat split. Qed.

(** C5.  The observer is connected with [Qt::QueuedConnection].  When
    [engine.load()] has returned and [app.exec()] is entered, the slot has
    not run: its call is waiting in the event queue.  In the log of every
    execution no slot run and no exit call lies inside the load call or
    ahead of the loop entry; the slot runs after both, and so does the
    exit call when there is one. *)
Theorem slot_dispatch_is_deferred (env : Environment) (argv : list string) :
  connections (final env argv) =
    [{| conn_slot := on_objectCreated "qrc:/main.qml";
        conn_type := QueuedConnection |}] /\
  (exists s : State,
     main env argv initial = exec env s /\
     postedEvents s =
       [{| mc_slot := on_objectCreated "qrc:/main.qml";
           mc_obj := fst (created env); mc_url := snd (created env) |}] /\
     occurrences is_loadReturn (log s) = 1 /\
     occurrences is_slotInvoked (log s) = 0 /\
     occurrences is_exit (log s) = 0) /\
  reentrant false (trace env argv) = false /\
  outside_loop false (trace env argv) = false /\
  before is_loadReturn is_slotInvoked (trace env argv) = true /\
  before is_exec is_slotInvoked (trace env argv) = true /\
  (forall c : Z, In (CExit c) (trace env argv) ->
                 before is_exec is_exit (trace env argv) = true).
Proof.
  split.
  { destruct (run_frame env argv) as (_ & _ & _ & _ & _ & _ & _ & _ & <-).
    reflexivity. }
  split.
  { exists (entering_loop env argv). repeat split. }
  rewrite run_log.
  destruct (load_failed env); repeat split.
  intros c H. cbn in H. exfalso. intuition discriminate.
Qed.

(** C6.  In every execution the observer is registered once, one load
    request is issued, and the slot is invoked at most once; it calls
    [QCoreApplication::exit] at most once, and only with -1 for a null
    handle reported under the requested path. *)
Theorem slot_invoked_at_most_once (env : Environment) (argv : list string) :
  (occurrences is_slotInvoked (trace env argv) <= 1)%nat /\
  (occurrences is_exit (trace env argv) <= 1)%nat /\
  occurrences is_connect (trace env argv) = 1 /\
  occurrences is_load (trace env argv) = 1 /\
  (forall c : Z, In (CExit c) (trace env argv) ->
     c = (-1)%Z /\
     fst (created env) = None /\ snd (created env) = "qrc:/main.qml").
Proof.
  pose proof (load_failed_iff env) as F.
  rewrite run_log.
  destruct (load_failed env); cbn.
  - repeat split; try lia; try (apply F; reflexivity).
    intuition congruence.
  - repeat split; try lia; exfalso; intuition discriminate.
Qed.

(** ** Frame and independence *)

(** C8.  In every execution, whether the load fails or not, each of the
    two attributes, each of the four identity strings and each of the two
    context properties is written by one call; these eight calls are all
    made before the event loop is entered, and the state they establish
    is the same when [app.exec()] returns as when it was entered. *)
Theorem globals_set_once (env : Environment) (argv : list string) :
  occurrences (is_setAttribute AA_EnableHighDpiScaling) (trace env argv) = 1 /\
  occurrences (is_setAttribute AA_UseHighDpiPixmaps) (trace env argv) = 1 /\
  occurrences is_setApplicationName (trace env argv) = 1 /\
  occurrences is_setApplicationVersion (trace env argv) = 1 /\
  occurrences is_setOrganizationName (trace env argv) = 1 /\
  occurrences is_setOrganizationDomain (trace env argv) = 1 /\
  occurrences (is_setContextProperty "applicationVersion") (trace env argv) = 1 /\
  occurrences (is_setContextProperty "applicationName") (trace env argv) = 1 /\
  occurrences is_setter (trace env argv) = 8 /\
  (exists s : State,
     main env argv initial = exec env s /\
     occurrences is_setter (log s) = 8 /\
     same_globals s (final env argv)).
Proof.
  do 9 (split; [count_calls env|]).
  exists (entering_loop env argv).
  split; [apply main_enters_loop|].
  split; [reflexivity | apply run_frame].
Qed.

(** C9.  Two executions in the same environment that differ in the
    process arguments make the same calls apart from the arguments handed
    to the application object, request the same document
    [qrc:/main.qml], return the same code and end with the same
    attributes, identity strings, context properties and connections.
    The arguments reach the constructor of the application object
    unchanged and appear nowhere else. *)
Theorem arguments_not_inspected (env : Environment) (argv1 argv2 : list string) :
  map forget_argv (trace env argv1) = map forget_argv (trace env argv2) /\
  exit_status env argv1 = exit_status env argv2 /\
  attributes (final env argv1) = attributes (final env argv2) /\
  st_applicationName (final env argv1) = st_applicationName (final env argv2) /\
  st_applicationVersion (final env argv1) = st_applicationVersion (final env argv2) /\
  st_organizationName (final env argv1) = st_organizationName (final env argv2) /\
  st_organizationDomain (final env argv1) = st_organizationDomain (final env argv2) /\
  contextProperties (final env argv1) = contextProperties (final env argv2) /\
  connections (final env argv1) = connections (final env argv2) /\
  In (CLoadEnter "qrc:/main.qml") (trace env argv1) /\
  occurrences is_load (trace env argv1) = 1 /\
  In (CQGuiApplication argv1) (trace env argv1) /\
  occurrences is_QGuiApplication (trace env argv1) = 1 /\
  application (final env argv1) = Some argv1.
Proof.
  destruct (run_frame env argv1)
    as (<- & <- & <- & <- & <- & <- & _ & <- & <-).
  destruct (run_frame env argv2)
    as (<- & _ & <- & <- & <- & <- & _ & <- & <-).
  rewrite !run_status, !run_log.
  destruct (load_failed env); cbn; repeat split; tauto.
Qed.

(** ** Sample executions *)

Example run_loaded :
  exit_status env_loaded ["puertocho-assistant-view"] = Some 0%Z /\
  trace env_loaded ["puertocho-assistant-view"] =
    [CSetAttribute AA_EnableHighDpiScaling;
     CSetAttribute AA_UseHighDpiPixmaps;
     CQGuiApplication ["puertocho-assistant-view"];
     CSetApplicationName "PuertoCho Assistant Dashboard";
     CSetApplicationVersion "1.0.0";
     CSetOrganizationName "PuertoCho";
     CSetOrganizationDomain "puertocho.local";
     CQQmlApplicationEngine;
     CRootContext;
     CSetContextProperty "applicationVersion" "1.0.0";
     CSetContextProperty "applicationName" "PuertoCho Assistant Dashboard";
     CConnect QueuedConnection;
     CLoadEnter "qrc:/main.qml";
     CLoadReturn;
     CExecEnter;
     CSlotInvoked (Some (RootObject 0)) "qrc:/main.qml"].
Proof. split; vm_compute; reflexivity. Qed.

Example run_broken :
  exit_status env_broken [] = Some (-1)%Z /\
  skipn 14 (trace env_broken []) =
    [CExecEnter; CSlotInvoked None "qrc:/main.qml"; CExit (-1)%Z].
Proof. split; vm_compute; reflexivity. Qed.

(** A null handle reported under another path does not end the process. *)
Example run_other_path :
  let env := {| loadResult := fun _ => (None, "qrc:/other.qml");
                events := [Other] |} in
  exit_status env [] = None /\
  skipn 14 (trace env []) = [CExecEnter; CSlotInvoked None "qrc:/other.qml"].
Proof. split; vm_compute; reflexivity. Qed.

(** ** What else the program shows *)

(** X1.  [main] publishes two context properties and no other: the log of
    every execution holds two [setContextProperty] calls, and a name is
    bound in the UI context when the execution ends if and only if it is
    [applicationName] or [applicationVersion]. *)
Theorem context_holds_two_properties (env : Environment) (argv : list string) :
  occurrences is_anySetContextProperty (trace env argv) = 2 /\
  (forall name : string,
     is_Some (contextProperties (final env argv) !! name) <->
     name = "applicationName" \/ name = "applicationVersion").
Proof.
  split; [count_calls env|].
  intros name.
  destruct (run_frame env argv) as (_ & _ & _ & _ & _ & _ & _ & <- & _).
  cbn [contextProperties entering_loop].
  destruct (decide (name = "applicationName")) as [->|N1].
  { rewrite lookup_insert_eq. split; [auto | intros _; eexists; reflexivity]. }
  rewrite lookup_insert_ne by congruence.
  destruct (decide (name = "applicationVersion")) as [->|N2].
  { rewrite lookup_insert_eq. split; [auto | intros _; eexists; reflexivity]. }
  rewrite lookup_insert_ne by congruence.
  rewrite lookup_empty. split.
  - intros [x Hx]. discriminate.
  - intros [E|E]; contradiction.
Qed.

(** X2.  What [main] establishes does not depend on what the toolkit
    does afterwards: two executions with the same arguments, in any two
    environments (document loaded or not, any reported path, any external
    events), end with the same attribute flags, application object,
    identity strings, context properties and connections, and their logs
    agree on the fifteen calls up to the loop entry. *)
Theorem startup_state_ignores_environment
  (env1 env2 : Environment) (argv : list string) :
  same_globals (final env1 argv) (final env2 argv) /\
  firstn 15 (trace env1 argv) = firstn 15 (trace env2 argv).
Proof.
  split.
  - pose proof (run_frame env1 argv) as H1.
    pose proof (run_frame env2 argv) as H2.
    unfold same_globals in *.
    destruct H1 as (<- & <- & <- & <- & <- & <- & <- & <- & <-).
    destruct H2 as (<- & <- & <- & <- & <- & <- & <- & <- & <-).
    repeat split.
  - rewrite !run_log. reflexivity.
Qed.
